(** * multi_agent_framework.py: a shallow embedding and its properties

    The script validates three environment variables, builds two clients
    (a search tool and a chat model), defines three callable agents over a
    shared [AgentState], wires them into a graph with conditional edges and
    streams the graph from a fixed input.

    The embedding follows the file top to bottom:
    - Python values and their formatting inside f-strings,
    - [check_environment] and the module-level set-up behind it,
    - the external-call monad (exceptions + a log of adapter calls),
    - [AgentState], the three agents and [route_based_on_role],
    - the graph tables and the runner. *)

From Stdlib Require Import String Ascii List Bool PeanoNat.
From stdpp Require Import base gmap strings list.
Import ListNotations.

#[local] Set Warnings "-register-all".

Local Open Scope string_scope.
Local Open Scope list_scope.

(** ** Python strings and values *)

(** A [string] stands for a Python [str] whose code points are below 256. *)

Definition nl : string := String (ascii_of_nat 10) EmptyString.

(** [sep.join(parts)] *)
Fixpoint join (sep : string) (parts : list string) : string :=
  match parts with
  | [] => EmptyString
  | [p] => p
  | p :: rest => p +:+ sep +:+ join sep rest
  end.

(** [needle in hay] for two strings *)
Fixpoint contains (needle hay : string) : bool :=
  String.prefix needle hay ||
  match hay with
  | EmptyString => false
  | String _ rest => contains needle rest
  end.

(** [c in s] for a character *)
Fixpoint has_char (c : ascii) (s : string) : bool :=
  match s with
  | EmptyString => false
  | String d rest => Ascii.eqb c d || has_char c rest
  end.

Definition hex_digit (n : nat) : ascii :=
  match String.get n "0123456789abcdef" with
  | Some c => c
  | None => "0"%char
  end.

Definition squote : ascii := "'"%char.
Definition dquote : ascii := ascii_of_nat 34.
Definition backslash : ascii := ascii_of_nat 92.

(** One character of [repr(s)], for the chosen quote character. *)
Definition repr_char (quote c : ascii) : string :=
  let n := nat_of_ascii c in
  if Ascii.eqb c quote || Ascii.eqb c backslash then String backslash (String c EmptyString)
  else if (n =? 9)%nat then String backslash "t"
  else if (n =? 10)%nat then String backslash "n"
  else if (n =? 13)%nat then String backslash "r"
  else if ((n <? 32) || (n =? 127) || ((128 <=? n) && (n <=? 160)) || (n =? 173))%nat
       then String backslash (String "x" (String (hex_digit (n / 16))
                                           (String (hex_digit (n mod 16)) EmptyString)))
  else String c EmptyString.

Fixpoint repr_chars (quote : ascii) (s : string) : string :=
  match s with
  | EmptyString => EmptyString
  | String c rest => repr_char quote c +:+ repr_chars quote rest
  end.

(** [repr(s)] of a [str]: single quotes, unless the text has a single quote
    and no double quote. *)
Definition repr_str (s : string) : string :=
  let quote := if has_char squote s && negb (has_char dquote s) then dquote else squote in
  String quote (repr_chars quote s +:+ String quote EmptyString).

(** The values that flow through [research_data]: the initial [{}], and what
    the search tool returns (a text, or a list of records or texts). *)
Inductive pyval : Type :=
  | PyStr (s : string)
  | PyList (items : list pyval)
  | PyDict (items : list (pyval * pyval)).

Fixpoint py_repr (v : pyval) : string :=
  match v with
  | PyStr s => repr_str s
  | PyList items => "[" +:+ join ", " (List.map py_repr items) +:+ "]"
  | PyDict items =>
      "{" +:+ join ", " (List.map (fun kv => py_repr (fst kv) +:+ ": " +:+ py_repr (snd kv)) items)
          +:+ "}"
  end.

(** [str(v)], which is what [{v}] inside an f-string inserts. *)
Definition py_str (v : pyval) : string :=
  match v with
  | PyStr s => s
  | _ => py_repr v
  end.

(** ** 1. Environment setup *)

(** The exceptions this file can raise: the explicit [raise EnvironmentError]
    and the [IndexError] of [seq[-1]] on an empty sequence.  The file defines
    no exception class of its own. *)
Inductive exn : Type :=
  | EnvironmentError (msg : string)
  | IndexError.

Inductive pyres (A : Type) : Type :=
  | Returned (a : A)
  | Raised (e : exn).
Arguments Returned {A} a.
Arguments Raised {A} e.

(** [os.getenv(key)]: the process environment is a finite map. *)
Definition os_getenv (env : gmap string string) (key : string) : option string :=
  env !! key.

(** Truthiness of an [Optional[str]]: [None] and [""] are false. *)
Definition truthy (v : option string) : bool :=
  match v with
  | None => false
  | Some EmptyString => false
  | Some (String _ _) => true
  end.

(** The dict literal, in insertion order (the order [.items()] yields). *)
Definition required_keys : list (string * string) :=
  [ ("TAVILY_API_KEY", "Tavily Search API");
    ("ANTHROPIC_API_KEY", "Anthropic Claude API");
    ("LANGCHAIN_API_KEY", "LangSmith API") ].

(** The loop that fills [missing_keys]. *)
Fixpoint collect_missing (env : gmap string string) (items : list (string * string))
  : list string :=
  match items with
  | [] => []
  | (key, service) :: rest =>
      if negb (truthy (os_getenv env key))
      then (service +:+ " (" +:+ key +:+ ")") :: collect_missing env rest
      else collect_missing env rest
  end.

Definition missing_message (missing_keys : list string) : string :=
  ("Missing required API keys:" +:+ nl) +:+
  join nl (List.map (fun key => "- " +:+ key) missing_keys) +:+
  (nl +:+ nl +:+ "Please set these environment variables or add them to your .env file").

Definition check_environment (env : gmap string string) : pyres unit :=
  let missing_keys := collect_missing env required_keys in
  match missing_keys with
  | [] => Returned tt
  | _ :: _ => Raised (EnvironmentError (missing_message missing_keys))
  end.

(** ** 2. Framework setup: the two clients *)

(** The keyword arguments the two client constructors are called with. *)
Record ChatAnthropic : Type := mkChatAnthropic {
  model : string;
  anthropic_api_key : option string
}.

Record TavilySearchResults : Type := mkTavilySearchResults {
  max_results : nat;
  tavily_api_key : option string
}.

(** The module's top level from [check_environment()] on: the check, then
    the two constructor calls.  [env] is the process environment as
    [os.getenv] sees it at that point, that is, after [load_dotenv()]. *)
Definition framework_setup (env : gmap string string)
  : pyres (ChatAnthropic * TavilySearchResults) :=
  match check_environment env with
  | Raised e => Raised e
  | Returned _ =>
      Returned ({| model := "claude-3-opus-20240229";
                   anthropic_api_key := os_getenv env "ANTHROPIC_API_KEY" |},
                {| max_results := 3;
                   tavily_api_key := os_getenv env "TAVILY_API_KEY" |})
  end.

(** Every callable of the file runs in [M]: it may raise, and it may call one
    of the two clients.  The log records the client calls in order, so that
    "before contacting the adapter" and "exactly one external call" can be
    stated. *)
Inductive call : Type :=
  | SearchCall (query : string)
  | LLMCall (prompt : string).

Definition M (A : Type) : Type := list call -> pyres A * list call.

#[export] Instance M_ret : MRet M := fun A a log => (Returned a, log).
#[export] Instance M_bind : MBind M := fun A B f m log =>
  match m log with
  | (Returned a, log') => f a log'
  | (Raised e, log') => (Raised e, log')
  end.

Definition raise {A : Type} (e : exn) : M A := fun log => (Raised e, log).

(** [seq[-1]] *)
Definition py_last {A : Type} (seq : list A) : M A :=
  match last seq with
  | Some x => mret x
  | None => raise IndexError
  end.

(** ** 2b. State definition *)

Inductive message_kind : Type := Human | AI.

Record BaseMessage : Type := mkMessage { kind : message_kind; content : string }.

Definition HumanMessage (text : string) : BaseMessage :=
  {| kind := Human; content := text |}.

Record AgentState : Type := mkState {
  messages : list BaseMessage;
  current_actor : string;
  research_data : pyval
}.

(** The dict an agent returns: each key may be present or not. *)
Record StepResult : Type := mkUpdate {
  upd_messages : option (list BaseMessage);
  upd_research_data : option pyval;
  upd_current_actor : option string
}.

(** Association lists stand for the small dict literals of the graph. *)
Fixpoint assoc {V : Type} (key : string) (table : list (string * V)) : option V :=
  match table with
  | [] => None
  | (k, v) :: rest => if String.eqb key k then Some v else assoc key rest
  end.

Inductive target : Type :=
  | Node (name : string)
  | END.

Definition valid_actor (tag : string) : bool :=
  existsb (String.eqb tag) ["researcher"; "analyst"; "writer"; "end"].

Section Framework.

(** The two clients, as deterministic functions of their argument:
    [search_tool.invoke({"query": q})] and [llm.invoke(prompt)].  These are
    clients that answer every call; a call that fails, which would make the
    calling agent raise after the call, is outside this model. *)
Variable search_tool : string -> pyval.
Variable llm : string -> BaseMessage.

Definition search_tool_invoke (query : string) : M pyval :=
  fun log => (Returned (search_tool query), log ++ [SearchCall query]).

Definition llm_invoke (prompt : string) : M BaseMessage :=
  fun log => (Returned (llm prompt), log ++ [LLMCall prompt]).

(** ** 3. Agent definitions *)

Definition ResearchAgent (state : AgentState) : M StepResult :=
  last ← py_last (messages state);
  let last_message := content last in
  research_result ← search_tool_invoke last_message;
  mret {| upd_messages :=
            Some [HumanMessage ("Research data: " +:+ py_str research_result)];
          upd_research_data := Some research_result;
          upd_current_actor := Some "analyst" |}.

Definition AnalysisAgent (state : AgentState) : M StepResult :=
  analysis ← llm_invoke ("Analyze this data: " +:+ py_str (research_data state));
  mret {| upd_messages := Some [HumanMessage (content analysis)];
          upd_research_data := None;
          upd_current_actor := Some "writer" |}.

Definition WritingAgent (state : AgentState) : M StepResult :=
  last ← py_last (messages state);
  final_response ← llm_invoke ("Generate final response using: " +:+ content last);
  mret {| upd_messages := Some [final_response];
          upd_research_data := None;
          upd_current_actor := Some "end" |}.

(** ** 4. Graph construction *)

(** [workflow.add_node] *)
Definition nodes : list (string * (AgentState -> M StepResult)) :=
  [ ("researcher", ResearchAgent);
    ("analyst", AnalysisAgent);
    ("writer", WritingAgent) ].

(** [workflow.set_entry_point] *)
Definition entry_point : string := "researcher".

Definition route_based_on_role (state : AgentState) : M string :=
  mret (current_actor state).

(** [workflow.add_conditional_edges]: per source node, the path map. *)
Definition conditional_edges : list (string * list (string * target)) :=
  [ ("researcher", [("analyst", Node "analyst"); ("writer", Node "writer"); ("end", END)]);
    ("analyst", [("writer", Node "writer"); ("end", END)]);
    ("writer", [("end", END)]) ].

(** The entry of a node's path map for a tag, if it has one. *)
Definition successor (site tag : string) : option target :=
  path_map ← assoc site conditional_edges;
  assoc tag path_map.

(** *** The graph runtime *)

(** Modelled from the spec: the reducer [add_messages] of the graph
    library, which is imported and not part of this file.  The spec: "new
    messages are appended (never replacing prior ones)". *)
Definition add_messages (left right : list BaseMessage) : list BaseMessage :=
  left ++ right.

(** Modelled from the spec: how the runtime merges the dict a node returns
    into the state, per key of [AgentState]: [messages] goes through its
    annotated reducer, [current_actor] and [research_data] are overwritten
    when the key is present and kept otherwise. *)
Definition apply_update (state : AgentState) (u : StepResult) : AgentState :=
  {| messages := match upd_messages u with
                 | Some new => add_messages (messages state) new
                 | None => messages state
                 end;
     current_actor := default (current_actor state) (upd_current_actor u);
     research_data := default (research_data state) (upd_research_data u) |}.

(** How a run ends, when no callable raises. *)
Inductive halt : Type :=
  | Halted                          (* the path map led to END *)
  | NoEdge (site tag : string)      (* the path map of [site] has no key [tag] *)
  | NoNode (name : string)          (* no node of that name was added *)
  | StepLimit.                      (* the step budget ran out *)

Record Run : Type := mkRun {
  outputs : list (string * StepResult);   (* what [app.stream] yields *)
  final_state : AgentState;
  how : halt
}.

(** Modelled from the spec: one step of the runtime, "each guarded by the
    Router reading the freshly-produced current_actor": call the node,
    merge its dict, ask the router. *)
Definition node_step (site : string) (state : AgentState)
  : M (option (StepResult * AgentState * string)) :=
  match assoc site nodes with
  | None => mret None
  | Some agent =>
      u ← agent state;
      let state' := apply_update state u in
      tag ← route_based_on_role state';
      mret (Some (u, state', tag))
  end.

(** Modelled from the spec: the compiled graph ([workflow.compile()],
    [app.stream]), a library that is imported and not part of this file.
    The spec: start at the entry step, after each step follow the edge the
    router's tag selects in that step's table, "end => halt and return
    final PipelineState".  A tag without an entry stops the run as
    [NoEdge]: the file gives the runtime nothing to go on there. *)
Fixpoint stream_from (fuel : nat) (site : string) (state : AgentState) : M Run :=
  match fuel with
  | O => mret {| outputs := []; final_state := state; how := StepLimit |}
  | S fuel' =>
      r ← node_step site state;
      match r with
      | None => mret {| outputs := []; final_state := state; how := NoNode site |}
      | Some (u, state', tag) =>
          match successor site tag with
          | None =>
              mret {| outputs := [(site, u)]; final_state := state'; how := NoEdge site tag |}
          | Some END =>
              mret {| outputs := [(site, u)]; final_state := state'; how := Halted |}
          | Some (Node next) =>
              rest ← stream_from fuel' next state';
              mret {| outputs := (site, u) :: outputs rest;
                      final_state := final_state rest;
                      how := how rest |}
          end
      end
  end.

Definition app_stream (fuel : nat) (inputs : AgentState) : M Run :=
  stream_from fuel entry_point inputs.

(** Modelled from the spec: the configurations a run of the runtime from
    [inputs] goes through: the node about to run, the state it will
    receive, and the client calls made so far. *)
Inductive reachable (inputs : AgentState) : string -> AgentState -> list call -> Prop :=
  | reach_entry : reachable inputs entry_point inputs []
  | reach_next site state log u state' tag log' next :
      reachable inputs site state log ->
      node_step site state log = (Returned (Some (u, state', tag)), log') ->
      successor site tag = Some (Node next) ->
      reachable inputs next state' log'.

End Framework.

(** ** 5. Execution example *)

Definition inputs : AgentState :=
  {| messages := [HumanMessage "Research latest AI advancements"];
     current_actor := "researcher";
     research_data := PyDict [] |}.

(** * Properties *)

(** ** Strings *)

Lemma prefix_append (a b : string) : String.prefix a (a +:+ b) = true.
Proof.
  induction a as [|c a IH]; simpl.
  - now destruct b.
  - destruct (ascii_dec c c) as [_|ne]; [exact IH | now destruct ne].
Qed.

Lemma prefix_self (a : string) : String.prefix a a = true.
Proof.
  induction a as [|c a IH]; simpl; [reflexivity|].
  destruct (ascii_dec c c) as [_|ne]; [exact IH | now destruct ne].
Qed.

Lemma contains_self (a : string) : contains a a = true.
Proof.
  destruct a as [|c a]; [reflexivity|].
  cbn [contains]. now rewrite prefix_self.
Qed.

Lemma contains_append_r (n a b : string) :
  contains n b = true -> contains n (a +:+ b) = true.
Proof.
  intros H. induction a as [|c a IH]; simpl; [exact H|].
  rewrite IH. apply orb_true_r.
Qed.

(** ** Environment validator *)

Definition is_unset (env : gmap string string) (key : string) : bool :=
  negb (truthy (os_getenv env key)).

Lemma is_unset_spec (env : gmap string string) (key : string) :
  is_unset env key = true <-> (env !! key = None \/ env !! key = Some EmptyString).
Proof.
  unfold is_unset, os_getenv. destruct (env !! key) as [[|c v]|]; simpl; split;
    intros H; try reflexivity; try discriminate; auto; destruct H; discriminate.
Qed.

Definition full_env : gmap string string :=
  <["TAVILY_API_KEY" := "tvly-1"]>
    (<["ANTHROPIC_API_KEY" := "sk-ant-1"]> (<["LANGCHAIN_API_KEY" := "ls-1"]> ∅)).

(** The example of the spec: the search and tracing keys are unset (one
    absent, one empty), the model key is set. *)
Definition partial_env : gmap string string :=
  <["ANTHROPIC_API_KEY" := "sk-ant-1"]> (<["LANGCHAIN_API_KEY" := ""]> ∅).

(** C9: when each of the three required keys is set to a non-empty string,
    [check_environment] returns (nothing) and raises no error. *)
Theorem check_environment_all_set (env : gmap string string) :
  (forall key service, In (key, service) required_keys ->
     exists v, env !! key = Some v /\ v <> EmptyString) ->
  check_environment env = Returned tt.
Proof.
  intros Hset.
  assert (Hok : forall key service, In (key, service) required_keys ->
                  truthy (os_getenv env key) = true).
  { intros key service Hin. destruct (Hset key service Hin) as (v & Hv & Hne).
    unfold os_getenv. rewrite Hv. destruct v; [now destruct Hne | reflexivity]. }
  unfold check_environment.
  assert (Hnone : forall items, (forall key service, In (key, service) items ->
                     truthy (os_getenv env key) = true) ->
                  collect_missing env items = []).
  { induction items as [|[key service] rest IH]; intros Hall; simpl; [reflexivity|].
    rewrite (Hall key service (or_introl eq_refl)). simpl.
    apply IH. intros k sv Hin. apply (Hall k sv). now right. }
  now rewrite (Hnone required_keys Hok).
Qed.

Lemma check_environment_all_set_witness :
  check_environment full_env = Returned tt.
Proof.
  apply (check_environment_all_set full_env).
  intros key service Hin. simpl in Hin.
  destruct Hin as [H | [H | [H | []]]]; inversion H; subst; clear H;
    eexists; (split; [vm_compute; reflexivity | discriminate]).
Defined.

(** C2: when at least one required key is absent or empty, [check_environment]
    raises [EnvironmentError]; its message is the fixed header, one line
    "- <service label> (<key>)" per unset key in table order, and the fixed
    footer; a required key (and its service label, and its line) occurs in the
    message exactly when that key is unset. *)
Theorem check_environment_names_every_missing_key (env : gmap string string) :
  (exists key service, In (key, service) required_keys /\ is_unset env key = true) ->
  exists msg,
    check_environment env = Raised (EnvironmentError msg) /\
    msg = missing_message
            (List.map (fun ks => snd ks +:+ " (" +:+ fst ks +:+ ")")
               (List.filter (fun ks => is_unset env (fst ks)) required_keys)) /\
    forall key service, In (key, service) required_keys ->
      contains ("- " +:+ service +:+ " (" +:+ key +:+ ")") msg = is_unset env key /\
      contains key msg = is_unset env key /\
      contains service msg = is_unset env key.
Proof.
  intros (key0 & service0 & Hin0 & Hun0).
  unfold check_environment, is_unset in *.
  cbn [collect_missing required_keys List.filter List.map fst snd] in *.
  destruct (truthy (os_getenv env "TAVILY_API_KEY")) eqn:E1;
  destruct (truthy (os_getenv env "ANTHROPIC_API_KEY")) eqn:E2;
  destruct (truthy (os_getenv env "LANGCHAIN_API_KEY")) eqn:E3;
  cbn [negb List.map fst snd].
  1: { exfalso. destruct Hin0 as [H | [H | [H | []]]]; inversion H; subst; clear H;
       rewrite ?E1, ?E2, ?E3 in Hun0; discriminate. }
  all: eexists; split; [reflexivity|]; split; [reflexivity|];
    intros key service Hin;
    destruct Hin as [H | [H | [H | []]]]; inversion H; subst; clear H;
    rewrite ?E1, ?E2, ?E3; vm_compute; auto.
Qed.

Lemma check_environment_names_every_missing_key_witness :
  exists msg,
    check_environment partial_env = Raised (EnvironmentError msg) /\
    contains "TAVILY_API_KEY" msg = true /\
    contains "LANGCHAIN_API_KEY" msg = true /\
    contains "ANTHROPIC_API_KEY" msg = false.
Proof.
  destruct (check_environment_names_every_missing_key partial_env) as (msg & Hraise & _ & Hnames).
  - exists "TAVILY_API_KEY", "Tavily Search API". split; [simpl; auto | vm_compute; reflexivity].
  - exists msg. split; [exact Hraise|].
    destruct (Hnames "TAVILY_API_KEY" "Tavily Search API") as (_ & H1 & _); [simpl; auto|].
    destruct (Hnames "LANGCHAIN_API_KEY" "LangSmith API") as (_ & H2 & _); [simpl; auto|].
    destruct (Hnames "ANTHROPIC_API_KEY" "Anthropic Claude API") as (_ & H3 & _); [simpl; auto|].
    rewrite H1, H2, H3. vm_compute. auto.
Defined.

(** ** Agents *)

Section AgentProperties.

Variable search_tool : string -> pyval.
Variable llm : string -> BaseMessage.

Lemma py_last_empty (A : Type) (log : list call) :
  @py_last A [] log = (Raised IndexError, log).
Proof. reflexivity. Qed.

Lemma py_last_some (A : Type) (seq : list A) (x : A) (log : list call) :
  last seq = Some x -> py_last seq log = (Returned x, log).
Proof. intros H. unfold py_last. now rewrite H. Qed.

Lemma last_of_nonempty (A : Type) (seq : list A) :
  seq <> [] -> exists x, last seq = Some x.
Proof.
  intros Hne. destruct (last seq) as [x|] eqn:E; [now exists x|].
  apply last_None in E. contradiction.
Qed.

Lemma ResearchAgent_returns (s : AgentState) (m : BaseMessage) (log : list call) :
  last (messages s) = Some m ->
  ResearchAgent search_tool s log =
    (Returned {| upd_messages :=
                   Some [HumanMessage ("Research data: " +:+ py_str (search_tool (content m)))];
                 upd_research_data := Some (search_tool (content m));
                 upd_current_actor := Some "analyst" |},
     log ++ [SearchCall (content m)]).
Proof.
  intros H. unfold ResearchAgent, mbind, M_bind. now rewrite (py_last_some _ _ _ _ H).
Qed.

Lemma AnalysisAgent_returns (s : AgentState) (log : list call) :
  AnalysisAgent llm s log =
    (Returned {| upd_messages :=
                   Some [HumanMessage
                           (content (llm ("Analyze this data: " +:+ py_str (research_data s))))];
                 upd_research_data := None;
                 upd_current_actor := Some "writer" |},
     log ++ [LLMCall ("Analyze this data: " +:+ py_str (research_data s))]).
Proof. reflexivity. Qed.

Lemma WritingAgent_returns (s : AgentState) (m : BaseMessage) (log : list call) :
  last (messages s) = Some m ->
  WritingAgent llm s log =
    (Returned {| upd_messages := Some [llm ("Generate final response using: " +:+ content m)];
                 upd_research_data := None;
                 upd_current_actor := Some "end" |},
     log ++ [LLMCall ("Generate final response using: " +:+ content m)]).
Proof.
  intros H. unfold WritingAgent, mbind, M_bind. now rewrite (py_last_some _ _ _ _ H).
Qed.

Lemma ResearchAgent_empty (s : AgentState) (log : list call) :
  messages s = [] -> ResearchAgent search_tool s log = (Raised IndexError, log).
Proof. intros H. unfold ResearchAgent, mbind, M_bind. now rewrite H. Qed.

Lemma WritingAgent_empty (s : AgentState) (log : list call) :
  messages s = [] -> WritingAgent llm s log = (Raised IndexError, log).
Proof. intros H. unfold WritingAgent, mbind, M_bind. now rewrite H. Qed.

(** What one super-step of the runner can be: the node is one of the three
    that were added, the state handed to the router is the merged one, and
    the tag the router returns is the literal the agent wrote. *)
Lemma node_step_inv (site : string) (s : AgentState) (log : list call)
      (u : StepResult) (s' : AgentState) (tag : string) (log' : list call) :
  node_step search_tool llm site s log = (Returned (Some (u, s', tag)), log') ->
  s' = apply_update s u /\ tag = current_actor s' /\
  ((site = "researcher" /\ ResearchAgent search_tool s log = (Returned u, log')
      /\ upd_current_actor u = Some "analyst") \/
   (site = "analyst" /\ AnalysisAgent llm s log = (Returned u, log')
      /\ upd_current_actor u = Some "writer") \/
   (site = "writer" /\ WritingAgent llm s log = (Returned u, log')
      /\ upd_current_actor u = Some "end")).
Proof.
  unfold node_step, nodes. cbn [assoc].
  destruct (String.eqb site "researcher") eqn:E1;
    [apply String.eqb_eq in E1
    |destruct (String.eqb site "analyst") eqn:E2;
       [apply String.eqb_eq in E2
       |destruct (String.eqb site "writer") eqn:E3;
          [apply String.eqb_eq in E3 | discriminate]]];
    subst site.
  - destruct (last (messages s)) as [m|] eqn:El.
    + unfold mbind, M_bind. rewrite (ResearchAgent_returns s m log El).
      cbn. intros H. inversion H; subst. split; [reflexivity|]. split; [reflexivity|].
      left. auto.
    + apply last_None in El. unfold mbind, M_bind.
      rewrite (ResearchAgent_empty s log El). discriminate.
  - unfold mbind, M_bind. rewrite AnalysisAgent_returns.
    cbn. intros H. inversion H; subst. split; [reflexivity|]. split; [reflexivity|].
    right; left. auto.
  - destruct (last (messages s)) as [m|] eqn:El.
    + unfold mbind, M_bind. rewrite (WritingAgent_returns s m log El).
      cbn. intros H. inversion H; subst. split; [reflexivity|]. split; [reflexivity|].
      right; right. auto.
    + apply last_None in El. unfold mbind, M_bind.
      rewrite (WritingAgent_empty s log El). discriminate.
Qed.

End AgentProperties.

(** ** Stubs and sample states used as concrete inputs *)

Definition stub_search (query : string) : pyval :=
  PyList [PyStr "result A"; PyStr "result B"].

Definition stub_llm (prompt : string) : BaseMessage :=
  {| kind := AI; content := "re: " +:+ prompt |}.

Definition empty_history : AgentState :=
  {| messages := []; current_actor := "researcher"; research_data := PyDict [] |}.

(** ** Research step *)

(** C4: on a state whose last message is [m], the research agent calls the
    search tool once with [m]'s text and returns one new message whose text is
    "Research data: " followed by the result's text form, [research_data] set
    to the result and [current_actor] set to "analyst"; when the result is the
    list of "result A" and "result B", the message text contains both. *)
Theorem ResearchAgent_wraps_search_result
    (search_tool : string -> pyval) (s : AgentState) (m : BaseMessage) (log : list call) :
  last (messages s) = Some m ->
  let R := search_tool (content m) in
  let text := "Research data: " +:+ py_str R in
  ResearchAgent search_tool s log =
    (Returned {| upd_messages := Some [HumanMessage text];
                 upd_research_data := Some R;
                 upd_current_actor := Some "analyst" |},
     log ++ [SearchCall (content m)]) /\
  String.prefix "Research data: " text = true /\
  contains (py_str R) text = true /\
  (R = PyList [PyStr "result A"; PyStr "result B"] ->
   contains "result A" text = true /\ contains "result B" text = true).
Proof.
  intros Hlast R text. split; [exact (ResearchAgent_returns search_tool s m log Hlast)|].
  split; [apply prefix_append|].
  split; [apply contains_append_r, contains_self|].
  intros HR. subst text. rewrite HR. vm_compute. auto.
Qed.

Lemma ResearchAgent_wraps_search_result_witness :
  ResearchAgent stub_search inputs [] =
    (Returned {| upd_messages :=
                   Some [HumanMessage "Research data: ['result A', 'result B']"];
                 upd_research_data := Some (PyList [PyStr "result A"; PyStr "result B"]);
                 upd_current_actor := Some "analyst" |},
     [SearchCall "Research latest AI advancements"]) /\
  contains "result A" "Research data: ['result A', 'result B']" = true /\
  contains "result B" "Research data: ['result A', 'result B']" = true.
Proof.
  destruct (ResearchAgent_wraps_search_result stub_search inputs
              (HumanMessage "Research latest AI advancements") [] eq_refl)
    as (Hret & _ & _ & Hboth).
  split; [exact Hret | exact (Hboth eq_refl)].
Defined.

(** C10: on a state with an empty message history the research agent raises
    (the [IndexError] of indexing the last element) and the log of client
    calls is unchanged: the failure comes before the search tool is called.
    The writing agent fails the same way before calling the model. *)
Theorem agents_need_a_last_message
    (search_tool : string -> pyval) (llm : string -> BaseMessage)
    (s : AgentState) (log : list call) :
  messages s = [] ->
  ResearchAgent search_tool s log = (Raised IndexError, log) /\
  WritingAgent llm s log = (Raised IndexError, log).
Proof.
  intros H. split; [now apply ResearchAgent_empty | now apply WritingAgent_empty].
Qed.

Lemma agents_need_a_last_message_witness :
  ResearchAgent stub_search empty_history [] = (Raised IndexError, []) /\
  WritingAgent stub_llm empty_history [] = (Raised IndexError, []).
Proof.
  exact (agents_need_a_last_message stub_search stub_llm empty_history [] eq_refl).
Defined.

(** With a last message to read, both agents return: the precondition of
    C10 is all they need. *)
Lemma agents_return_on_nonempty_history
    (search_tool : string -> pyval) (llm : string -> BaseMessage)
    (s : AgentState) (log : list call) :
  messages s <> [] ->
  (exists u log', ResearchAgent search_tool s log = (Returned u, log')) /\
  (exists u log', WritingAgent llm s log = (Returned u, log')).
Proof.
  intros Hne. destruct (last_of_nonempty _ _ Hne) as [m Hm]. split.
  - eexists _, _. exact (ResearchAgent_returns search_tool s m log Hm).
  - eexists _, _. exact (WritingAgent_returns llm s m log Hm).
Qed.

(** ** Successor tags *)

(** What an agent's call did to [current_actor]: it returned a dict whose
    tag is [tag], or it raised on an empty history. *)
Definition sets_actor (tag : string) (s : AgentState) (r : pyres StepResult) : Prop :=
  match r with
  | Returned u => upd_current_actor u = Some tag
  | Raised e => e = IndexError /\ messages s = []
  end.

(** C5: whatever the state, the log and the two clients are, the research
    agent returns the tag "analyst", the analysis agent "writer" and the
    writing agent "end" (the first and last raise only on an empty history,
    the analysis agent always returns).  So after the researcher node the
    router's tag selects the "analyst" entry of the researcher's table: its
    "writer" and "end" entries are never selected. *)
Theorem agents_emit_fixed_tags
    (search_tool : string -> pyval) (llm : string -> BaseMessage)
    (s : AgentState) (log : list call) :
  sets_actor "analyst" s (fst (ResearchAgent search_tool s log)) /\
  (exists u, fst (AnalysisAgent llm s log) = Returned u /\ upd_current_actor u = Some "writer") /\
  sets_actor "end" s (fst (WritingAgent llm s log)) /\
  match fst (node_step search_tool llm "researcher" s log) with
  | Returned (Some (_, _, tag)) =>
      tag = "analyst" /\
      successor "researcher" tag = Some (Node "analyst") /\
      successor "researcher" tag <> successor "researcher" "writer" /\
      successor "researcher" tag <> successor "researcher" "end"
  | Returned None => False
  | Raised e => e = IndexError /\ messages s = []
  end.
Proof.
  destruct (last (messages s)) as [m|] eqn:El.
  - split; [|split; [|split]].
    + now rewrite (ResearchAgent_returns search_tool s m log El).
    + eexists. rewrite AnalysisAgent_returns. split; reflexivity.
    + now rewrite (WritingAgent_returns llm s m log El).
    + unfold node_step, nodes. cbn [assoc String.eqb Ascii.eqb Bool.eqb].
      unfold mbind, M_bind. rewrite (ResearchAgent_returns search_tool s m log El).
      cbn. repeat split; discriminate.
  - apply last_None in El. split; [|split; [|split]].
    + now rewrite (ResearchAgent_empty search_tool s log El).
    + eexists. rewrite AnalysisAgent_returns. split; reflexivity.
    + now rewrite (WritingAgent_empty llm s log El).
    + unfold node_step, nodes. cbn [assoc String.eqb Ascii.eqb Bool.eqb].
      unfold mbind, M_bind. now rewrite (ResearchAgent_empty search_tool s log El).
Qed.

(** ** The tag stays in its closed set *)

Lemma step_result_tag_valid
    (search_tool : string -> pyval) (llm : string -> BaseMessage)
    (site : string) (s : AgentState) (log : list call)
    (u : StepResult) (s' : AgentState) (tag : string) (log' : list call) :
  node_step search_tool llm site s log = (Returned (Some (u, s', tag)), log') ->
  tag = current_actor s' /\
  upd_current_actor u = Some tag /\
  valid_actor tag = true.
Proof.
  intros H. apply node_step_inv in H as (Hs' & Htag & Hsite).
  assert (Hu : current_actor s' = default (current_actor s) (upd_current_actor u))
    by now subst s'.
  destruct Hsite as [(_ & _ & Ha) | [(_ & _ & Ha) | (_ & _ & Ha)]];
    rewrite Ha in Hu; cbn in Hu; rewrite Hu in Htag; subst tag; rewrite Ha; auto.
Qed.

(** C6: from an input whose tag is one of "researcher", "analyst", "writer",
    "end", every configuration of the run carries a tag of that set, and
    every state handed to the router after a node has run does too: the tag
    the router returns is the one the node wrote, and it is in the set. *)
Theorem current_actor_stays_in_closed_set
    (search_tool : string -> pyval) (llm : string -> BaseMessage)
    (inputs0 : AgentState) :
  valid_actor (current_actor inputs0) = true ->
  forall site s log,
    reachable search_tool llm inputs0 site s log ->
    valid_actor (current_actor s) = true /\
    forall u s' tag log',
      node_step search_tool llm site s log = (Returned (Some (u, s', tag)), log') ->
      upd_current_actor u = Some tag /\
      tag = current_actor s' /\
      valid_actor (current_actor s') = true.
Proof.
  intros Hvalid site s log Hreach.
  split.
  - induction Hreach as [|site s log u s' tag log' next _ _ Hstep _]; [exact Hvalid|].
    apply step_result_tag_valid in Hstep as (Htag & _ & Hv). now rewrite <- Htag.
  - intros u s' tag log' Hstep.
    apply step_result_tag_valid in Hstep as (Htag & Hu & Hv).
    split; [exact Hu|]. split; [exact Htag|]. now rewrite <- Htag.
Qed.

Lemma current_actor_stays_in_closed_set_witness :
  valid_actor (current_actor inputs) = true /\
  valid_actor
    (current_actor
       (apply_update inputs
          {| upd_messages :=
               Some [HumanMessage "Research data: ['result A', 'result B']"];
             upd_research_data := Some (PyList [PyStr "result A"; PyStr "result B"]);
             upd_current_actor := Some "analyst" |})) = true.
Proof.
  split; [reflexivity|].
  destruct (current_actor_stays_in_closed_set stub_search stub_llm inputs eq_refl
              entry_point inputs [] (reach_entry stub_search stub_llm inputs))
    as (_ & Hrouter).
  destruct (Hrouter _ _ _ _ eq_refl) as (_ & _ & Hv).
  exact Hv.
Defined.

(** ** Frame: what a merge leaves alone *)

Definition keeps_research_data (s : AgentState) (r : pyres StepResult) : Prop :=
  match r with
  | Returned u => upd_research_data u = None /\
                  research_data (apply_update s u) = research_data s
  | Raised e => e = IndexError /\ messages s = []
  end.

(** C7: merging any returned dict into the state keeps the earlier messages
    as a prefix, in order; the dicts of the analysis and writing agents carry
    no [research_data] key, so the merge leaves that field as it was, while
    the research agent's dict overwrites it with the search result. *)
Theorem merge_appends_and_frames_research_data
    (search_tool : string -> pyval) (llm : string -> BaseMessage)
    (s : AgentState) (log : list call) :
  (forall u : StepResult,
     exists new, messages (apply_update s u) = messages s ++ new /\
                 new = default [] (upd_messages u)) /\
  keeps_research_data s (fst (AnalysisAgent llm s log)) /\
  keeps_research_data s (fst (WritingAgent llm s log)) /\
  match fst (ResearchAgent search_tool s log), last (messages s) with
  | Returned u, Some m =>
      research_data (apply_update s u) = search_tool (content m)
  | Raised e, None => e = IndexError
  | _, _ => False
  end.
Proof.
  split; [|split; [|split]].
  - intros u. unfold apply_update, add_messages. cbn.
    destruct (upd_messages u) as [new|]; cbn; eexists; split; try reflexivity.
    now rewrite app_nil_r.
  - rewrite AnalysisAgent_returns. cbn. auto.
  - destruct (last (messages s)) as [m|] eqn:El.
    + rewrite (WritingAgent_returns llm s m log El). cbn. auto.
    + apply last_None in El. rewrite (WritingAgent_empty llm s log El). cbn. auto.
  - destruct (last (messages s)) as [m|] eqn:El.
    + now rewrite (ResearchAgent_returns search_tool s m log El).
    + apply last_None in El. now rewrite (ResearchAgent_empty search_tool s log El).
Qed.

(** ** Router *)

(** C8: the router returns the state's [current_actor], raises nothing and
    makes no client call, whatever the log; so on two states with the same
    [current_actor] (and on any two logs) it returns the same successor tag. *)
Theorem route_based_on_role_is_identity_lookup (s1 : AgentState) (log1 : list call) :
  route_based_on_role s1 log1 = (Returned (current_actor s1), log1) /\
  forall (s2 : AgentState) (log2 : list call),
    current_actor s1 = current_actor s2 ->
    fst (route_based_on_role s1 log1) = fst (route_based_on_role s2 log2) /\
    forall site, successor site (current_actor s1) = successor site (current_actor s2).
Proof.
  split; [reflexivity|]. intros s2 log2 H. split.
  - cbn. now rewrite H.
  - intros site. now rewrite H.
Qed.

Lemma route_based_on_role_is_identity_lookup_witness :
  route_based_on_role inputs [] = (Returned "researcher", []) /\
  fst (route_based_on_role inputs []) =
    fst (route_based_on_role empty_history [LLMCall "earlier"]).
Proof.
  destruct (route_based_on_role_is_identity_lookup inputs []) as (H1 & H2).
  destruct (H2 empty_history [LLMCall "earlier"] eq_refl) as (H3 & _).
  split; [exact H1 | exact H3].
Defined.

(** The keys of a node's path map. *)
Definition listed_tags (site : string) : list string :=
  match assoc site conditional_edges with
  | Some path_map => List.map fst path_map
  | None => []
  end.

Lemma successor_none_iff_unlisted (site tag : string) :
  successor site tag = None <-> ~ In tag (listed_tags site).
Proof.
  unfold successor, listed_tags. cbn [mbind option_bind].
  destruct (assoc site conditional_edges) as [path_map|]; cbn; [|tauto].
  induction path_map as [|[k v] rest IH]; cbn; [tauto|].
  destruct (String.eqb tag k) eqn:E.
  - apply String.eqb_eq in E. subst. split; [discriminate | intros H; destruct H; auto].
  - apply String.eqb_neq in E. rewrite IH. split.
    + intros H [Hk | Hin]; [now subst | auto].
    + intros H Hin. apply H. now right.
Qed.

(** ** End to end *)

(** C1: with any two deterministic clients, streaming the graph from the
    fixed input with a budget of at least three steps halts at END after
    exactly three outputs, from the nodes researcher, analyst, writer in that
    order, having made three client calls; the final state has
    [current_actor] "end" and four messages: the seed, then one per step. *)
Theorem workflow_runs_three_steps
    (search_tool : string -> pyval) (llm : string -> BaseMessage) (extra : nat) :
  exists u1 u2 u3 m1 m2 m3 final log,
    app_stream search_tool llm (3 + extra) inputs [] =
      (Returned {| outputs := [("researcher", u1); ("analyst", u2); ("writer", u3)];
                   final_state := final;
                   how := Halted |}, log) /\
    current_actor final = "end" /\
    messages final = [HumanMessage "Research latest AI advancements"; m1; m2; m3] /\
    upd_messages u1 = Some [m1] /\ upd_messages u2 = Some [m2] /\ upd_messages u3 = Some [m3] /\
    length (messages final) = 4 /\
    length log = 3.
Proof.
  do 8 eexists. cbn. repeat split.
Qed.

(** Two steps are not enough: the budget runs out with the writer still to
    run. *)
Lemma workflow_not_done_in_two_steps
    (search_tool : string -> pyval) (llm : string -> BaseMessage) :
  exists r log,
    app_stream search_tool llm 2 inputs [] = (Returned r, log) /\
    how r = StepLimit /\ current_actor (final_state r) = "writer".
Proof. do 2 eexists. cbn. repeat split. Qed.

(** * Further properties of the code *)

(** ** The environment check reads three facts and nothing else *)

(** The line the check writes for an entry of the table. *)
Definition missing_line (entry : string * string) : string :=
  snd entry +:+ " (" +:+ fst entry +:+ ")".

Lemma collect_missing_filter (env : gmap string string) (items : list (string * string)) :
  collect_missing env items =
    List.map missing_line (List.filter (fun entry => is_unset env (fst entry)) items).
Proof.
  induction items as [|[key service] rest IH]; [reflexivity|].
  cbn [collect_missing List.filter fst]. unfold is_unset at 1.
  destruct (negb (truthy (os_getenv env key))); cbn [List.map]; now rewrite IH.
Qed.

Lemma collect_missing_ext (env1 env2 : gmap string string) (items : list (string * string)) :
  (forall key service, In (key, service) items -> is_unset env1 key = is_unset env2 key) ->
  collect_missing env1 items = collect_missing env2 items.
Proof.
  induction items as [|[key service] rest IH]; intros Hagree; [reflexivity|].
  cbn [collect_missing].
  assert (Hk := Hagree key service (or_introl eq_refl)). unfold is_unset in Hk.
  rewrite Hk, IH; [reflexivity|].
  intros k sv Hin. apply (Hagree k sv). now right.
Qed.

Lemma check_environment_returns_iff (env : gmap string string) :
  check_environment env = Returned tt <->
  forall key service, In (key, service) required_keys -> is_unset env key = false.
Proof.
  unfold check_environment. rewrite collect_missing_filter. split.
  - intros H key service Hin.
    destruct (is_unset env key) eqn:E; [|reflexivity]. exfalso.
    assert (Hf : In (key, service)
                   (List.filter (fun entry => is_unset env (fst entry)) required_keys))
      by (apply filter_In; split; [exact Hin | exact E]).
    destruct (List.filter (fun entry => is_unset env (fst entry)) required_keys);
      [destruct Hf | discriminate H].
  - intros Hall.
    assert (Hnil : List.filter (fun entry => is_unset env (fst entry)) required_keys = []).
    { generalize Hall. generalize required_keys.
      induction l as [|[key service] rest IH]; intros Hl; [reflexivity|].
      cbn [List.filter fst]. rewrite (Hl key service (or_introl eq_refl)).
      apply IH. intros k sv Hin. apply (Hl k sv). now right. }
    now rewrite Hnil.
Qed.

(** An environment that differs from [partial_env] in every value it could
    differ in: another model key, a tracing key that is absent instead of
    empty, and a variable the check does not know. *)
Definition other_partial_env : gmap string string :=
  <["ANTHROPIC_API_KEY" := "another-key"]> (<["HOME" := "/root"]> ∅).

(** X1: the outcome of the check, error message included, is a function of
    which of the three keys are unset: two environments that agree on that
    get the same result, whatever the values of the keys and whatever else
    is in the environment.  No value of a variable reaches the message. *)
Theorem check_environment_reads_only_unset_keys (env1 env2 : gmap string string) :
  (forall key service, In (key, service) required_keys ->
     is_unset env1 key = is_unset env2 key) ->
  check_environment env1 = check_environment env2.
Proof.
  intros Hagree. unfold check_environment.
  now rewrite (collect_missing_ext env1 env2 required_keys Hagree).
Qed.

Lemma check_environment_reads_only_unset_keys_witness :
  check_environment partial_env = check_environment other_partial_env.
Proof.
  apply (check_environment_reads_only_unset_keys partial_env other_partial_env).
  intros key service Hin. simpl in Hin.
  destruct Hin as [H | [H | [H | []]]]; inversion H; subst; clear H;
    vm_compute; reflexivity.
Defined.

(** X2: a key set to the empty string counts as missing exactly like a key
    that is absent: setting a variable to [""] and removing it give the same
    result of the check. *)
Theorem check_environment_empty_is_absent (env : gmap string string) (key : string) :
  check_environment (<[key := EmptyString]> env) = check_environment (delete key env).
Proof.
  unfold check_environment.
  rewrite (collect_missing_ext (<[key := EmptyString]> env) (delete key env) required_keys);
    [reflexivity|].
  intros k service _. unfold is_unset, os_getenv.
  destruct (decide (key = k)) as [->|Hne].
  - now rewrite lookup_insert_eq, lookup_delete_eq.
  - now rewrite lookup_insert_ne, lookup_delete_ne.
Qed.

Lemma is_unset_insert (env : gmap string string) (key k v : string) :
  v <> EmptyString ->
  is_unset (<[key := v]> env) k = is_unset env k && negb (String.eqb k key).
Proof.
  intros Hv. unfold is_unset, os_getenv.
  destruct (String.eqb k key) eqn:E.
  - apply String.eqb_eq in E. subst k. rewrite lookup_insert_eq.
    destruct v; [now destruct Hv|]. cbn. now rewrite andb_false_r.
  - apply String.eqb_neq in E. rewrite lookup_insert_ne by congruence.
    now rewrite andb_true_r.
Qed.

(** X3: giving one required key a non-empty value removes that key's line
    from the list of missing keys and changes nothing else: the other lines
    stay, in the same order, and no line is added.  So when that key was the
    only one missing, the check passes afterwards. *)
Theorem setting_a_key_clears_its_line
    (env : gmap string string) (key service v : string) :
  In (key, service) required_keys ->
  v <> EmptyString ->
  collect_missing (<[key := v]> env) required_keys =
    List.filter (fun line => negb (String.eqb line (missing_line (key, service))))
      (collect_missing env required_keys) /\
  ((forall k sv, In (k, sv) required_keys -> k <> key -> is_unset env k = false) ->
   check_environment (<[key := v]> env) = Returned tt).
Proof.
  intros Hin Hv. split.
  - rewrite !collect_missing_filter. cbn [required_keys List.filter fst].
    rewrite !(is_unset_insert env key _ v Hv).
    destruct Hin as [H | [H | [H | []]]]; inversion H; subst; clear H;
      destruct (is_unset env "TAVILY_API_KEY"),
               (is_unset env "ANTHROPIC_API_KEY"),
               (is_unset env "LANGCHAIN_API_KEY"); reflexivity.
  - intros Hothers. apply check_environment_returns_iff.
    intros k sv Hk. rewrite (is_unset_insert env key k v Hv).
    destruct (String.eqb k key) eqn:E; [now rewrite andb_false_r|].
    apply String.eqb_neq in E. now rewrite (Hothers k sv Hk E).
Qed.

Lemma setting_a_key_clears_its_line_witness :
  collect_missing partial_env required_keys =
    ["Tavily Search API (TAVILY_API_KEY)"; "LangSmith API (LANGCHAIN_API_KEY)"] /\
  collect_missing (<["TAVILY_API_KEY" := "tvly-1"]> partial_env) required_keys =
    ["LangSmith API (LANGCHAIN_API_KEY)"].
Proof.
  split; [vm_compute; reflexivity|].
  destruct (setting_a_key_clears_its_line partial_env
              "TAVILY_API_KEY" "Tavily Search API" "tvly-1") as (H & _).
  - simpl. auto.
  - discriminate.
  - rewrite H. vm_compute. reflexivity.
Defined.

(** ** Module set-up: the clients behind the check *)

(** X4: when the module's set-up gets as far as the two constructors, each
    client is given a key that is present and not empty (never [None]), the
    model name and the result bound are the fixed ones, and the tracing key,
    which neither client takes, is set as well. *)
Theorem framework_setup_passes_real_keys
    (env : gmap string string) (chat : ChatAnthropic) (tool : TavilySearchResults) :
  framework_setup env = Returned (chat, tool) ->
  (exists k, anthropic_api_key chat = Some k /\ env !! "ANTHROPIC_API_KEY" = Some k
             /\ k <> EmptyString) /\
  (exists k, tavily_api_key tool = Some k /\ env !! "TAVILY_API_KEY" = Some k
             /\ k <> EmptyString) /\
  (exists k, env !! "LANGCHAIN_API_KEY" = Some k /\ k <> EmptyString) /\
  model chat = "claude-3-opus-20240229" /\
  max_results tool = 3.
Proof.
  unfold framework_setup.
  destruct (check_environment env) as [[]|e] eqn:Hcheck; [|discriminate].
  intros H. inversion H; subst; clear H. cbn [anthropic_api_key tavily_api_key model max_results].
  assert (Hset : forall key service, In (key, service) required_keys ->
                 exists k, env !! key = Some k /\ k <> EmptyString).
  { intros key service Hin.
    apply check_environment_returns_iff with (key := key) (service := service) in Hcheck;
      [|exact Hin].
    unfold is_unset, os_getenv in Hcheck.
    destruct (env !! key) as [[|c k]|]; try discriminate Hcheck.
    eexists. split; [reflexivity | discriminate]. }
  unfold os_getenv.
  destruct (Hset "ANTHROPIC_API_KEY" "Anthropic Claude API") as (k1 & H1 & N1); [simpl; auto|].
  destruct (Hset "TAVILY_API_KEY" "Tavily Search API") as (k2 & H2 & N2); [simpl; auto|].
  destruct (Hset "LANGCHAIN_API_KEY" "LangSmith API") as (k3 & H3 & N3); [simpl; auto|].
  repeat split; eauto.
Qed.

Lemma framework_setup_passes_real_keys_witness :
  framework_setup full_env =
    Returned ({| model := "claude-3-opus-20240229"; anthropic_api_key := Some "sk-ant-1" |},
              {| max_results := 3; tavily_api_key := Some "tvly-1" |}) /\
  exists k, full_env !! "LANGCHAIN_API_KEY" = Some k /\ k <> EmptyString.
Proof.
  assert (H : framework_setup full_env =
    Returned ({| model := "claude-3-opus-20240229"; anthropic_api_key := Some "sk-ant-1" |},
              {| max_results := 3; tavily_api_key := Some "tvly-1" |}))
    by (vm_compute; reflexivity).
  split; [exact H|].
  destruct (framework_setup_passes_real_keys full_env _ _ H) as (_ & _ & Hk & _).
  exact Hk.
Defined.

(** An environment in which both clients' keys are set and only the tracing
    key is missing. *)
Definition no_tracing_env : gmap string string :=
  <["TAVILY_API_KEY" := "tvly-1"]> (<["ANTHROPIC_API_KEY" := "sk-ant-1"]> ∅).

(** X5: one unset required key is enough to stop the set-up with the
    check's [EnvironmentError], before either client is built; this holds for
    the tracing key too, although no constructor receives it.  The error is
    the one [check_environment] raises. *)
Theorem framework_setup_stops_on_any_missing_key
    (env : gmap string string) (key service : string) :
  In (key, service) required_keys ->
  is_unset env key = true ->
  exists msg,
    framework_setup env = Raised (EnvironmentError msg) /\
    check_environment env = Raised (EnvironmentError msg) /\
    contains (missing_line (key, service)) msg = true.
Proof.
  intros Hin Hun. unfold framework_setup.
  destruct (check_environment env) as [[]|e] eqn:Hcheck.
  - apply check_environment_returns_iff with (key := key) (service := service) in Hcheck;
      [congruence | exact Hin].
  - revert Hcheck. unfold check_environment. rewrite collect_missing_filter.
    cbn [required_keys List.filter fst].
    destruct Hin as [H | [H | [H | []]]]; inversion H; subst; clear H;
      rewrite Hun;
      destruct (is_unset env "TAVILY_API_KEY"),
               (is_unset env "ANTHROPIC_API_KEY"),
               (is_unset env "LANGCHAIN_API_KEY");
      try discriminate Hun;
      intros Hc; inversion Hc; subst; clear Hc;
      eexists; (split; [reflexivity|]); (split; [reflexivity|]); vm_compute; reflexivity.
Qed.

Lemma framework_setup_stops_on_any_missing_key_witness :
  exists msg,
    framework_setup no_tracing_env = Raised (EnvironmentError msg) /\
    contains "LangSmith API (LANGCHAIN_API_KEY)" msg = true.
Proof.
  destruct (framework_setup_stops_on_any_missing_key no_tracing_env
              "LANGCHAIN_API_KEY" "LangSmith API") as (msg & H1 & _ & H2).
  - simpl. auto.
  - vm_compute. reflexivity.
  - exists msg. split; [exact H1 | exact H2].
Defined.

(** ** What each agent calls, reads and writes *)

(** X6: whenever an agent returns, the log has grown by exactly one call, at
    its end.  For the research agent it is a search for the text of the last
    message; for the analysis agent a model call whose prompt is "Analyze
    this data: " and the text form of [research_data]; for the writing agent
    a model call whose prompt is "Generate final response using: " and the
    text of the last message.  No returning agent calls the other client. *)
Theorem agents_make_one_call
    (search_tool : string -> pyval) (llm : string -> BaseMessage)
    (s : AgentState) (log : list call) (u : StepResult) (log' : list call) :
  (ResearchAgent search_tool s log = (Returned u, log') ->
   exists m, last (messages s) = Some m /\ log' = log ++ [SearchCall (content m)]) /\
  (AnalysisAgent llm s log = (Returned u, log') ->
   log' = log ++ [LLMCall ("Analyze this data: " +:+ py_str (research_data s))]) /\
  (WritingAgent llm s log = (Returned u, log') ->
   exists m, last (messages s) = Some m /\
             log' = log ++ [LLMCall ("Generate final response using: " +:+ content m)]).
Proof.
  split; [|split].
  - intros H. destruct (last (messages s)) as [m|] eqn:El.
    + rewrite (ResearchAgent_returns search_tool s m log El) in H.
      inversion H; subst. now exists m.
    + apply last_None in El. rewrite (ResearchAgent_empty search_tool s log El) in H.
      discriminate H.
  - rewrite AnalysisAgent_returns. intros H. now inversion H.
  - intros H. destruct (last (messages s)) as [m|] eqn:El.
    + rewrite (WritingAgent_returns llm s m log El) in H.
      inversion H; subst. now exists m.
    + apply last_None in El. rewrite (WritingAgent_empty llm s log El) in H.
      discriminate H.
Qed.

Lemma agents_make_one_call_witness :
  exists m,
    last (messages inputs) = Some m /\
    [LLMCall "earlier"; SearchCall "Research latest AI advancements"] =
      [LLMCall "earlier"] ++ [SearchCall (content m)].
Proof.
  destruct (agents_make_one_call stub_search stub_llm inputs [LLMCall "earlier"]
              {| upd_messages :=
                   Some [HumanMessage "Research data: ['result A', 'result B']"];
                 upd_research_data := Some (PyList [PyStr "result A"; PyStr "result B"]);
                 upd_current_actor := Some "analyst" |}
              [LLMCall "earlier"; SearchCall "Research latest AI advancements"])
    as (H & _ & _).
  exact (H eq_refl).
Defined.

(** A state that shares with [inputs] its last message only. *)
Definition longer_history : AgentState :=
  {| messages := [HumanMessage "earlier question";
                  HumanMessage "Research latest AI advancements"];
     current_actor := "writer";
     research_data := PyList [PyStr "old"] |}.

(** X7: the research and writing agents read the last message of the state
    and nothing else: on two states with the same last message (or both with
    none) they behave the same, whatever the earlier history, the
    [current_actor] and the [research_data].  The analysis agent reads
    [research_data] and nothing else, not even the history. *)
Theorem agents_read_only_their_input
    (search_tool : string -> pyval) (llm : string -> BaseMessage)
    (s1 s2 : AgentState) (log : list call) :
  (last (messages s1) = last (messages s2) ->
   ResearchAgent search_tool s1 log = ResearchAgent search_tool s2 log /\
   WritingAgent llm s1 log = WritingAgent llm s2 log) /\
  (research_data s1 = research_data s2 ->
   AnalysisAgent llm s1 log = AnalysisAgent llm s2 log).
Proof.
  split.
  - intros H. unfold ResearchAgent, WritingAgent, py_last, mbind, M_bind.
    now rewrite H.
  - intros H. unfold AnalysisAgent. now rewrite H.
Qed.

Lemma agents_read_only_their_input_witness :
  ResearchAgent stub_search inputs [] = ResearchAgent stub_search longer_history [] /\
  WritingAgent stub_llm inputs [] = WritingAgent stub_llm longer_history [] /\
  AnalysisAgent stub_llm inputs [] = AnalysisAgent stub_llm empty_history [].
Proof.
  destruct (agents_read_only_their_input stub_search stub_llm inputs longer_history [])
    as (Hlast & _).
  destruct (agents_read_only_their_input stub_search stub_llm inputs empty_history [])
    as (_ & Hdata).
  destruct (Hlast eq_refl) as (HR & HW).
  split; [exact HR|]. split; [exact HW | exact (Hdata eq_refl)].
Defined.

(** What an agent's dict does to the history: one message, of a given kind
    or equal to a given message. *)
Definition appends_one (ok : BaseMessage -> Prop) (r : pyres StepResult) : Prop :=
  match r with
  | Returned u => exists msg, upd_messages u = Some [msg] /\ ok msg
  | Raised _ => True
  end.

(** X8: every returned dict carries exactly one new message.  The research
    and analysis agents build a human message, so the analysis message has
    the model's text but not the model's message kind; the writing agent
    passes the model's message on unchanged, kind included. *)
Theorem agents_append_one_message
    (search_tool : string -> pyval) (llm : string -> BaseMessage)
    (s : AgentState) (log : list call) :
  appends_one (fun msg => kind msg = Human) (fst (ResearchAgent search_tool s log)) /\
  appends_one (fun msg => kind msg = Human /\
                          content msg =
                            content (llm ("Analyze this data: " +:+ py_str (research_data s))))
              (fst (AnalysisAgent llm s log)) /\
  appends_one (fun msg => exists prompt, msg = llm prompt /\
                          snd (WritingAgent llm s log) = log ++ [LLMCall prompt])
              (fst (WritingAgent llm s log)).
Proof.
  rewrite AnalysisAgent_returns.
  destruct (last (messages s)) as [m|] eqn:El.
  - rewrite (ResearchAgent_returns search_tool s m log El),
            (WritingAgent_returns llm s m log El).
    cbn. repeat split; eexists; split; try reflexivity; auto.
    eexists. split; reflexivity.
  - apply last_None in El.
    rewrite (ResearchAgent_empty search_tool s log El), (WritingAgent_empty llm s log El).
    cbn. repeat split. eexists; split; try reflexivity; auto.
Qed.

(** ** The tables of the graph *)

Lemma assoc_nodes_inv
    (search_tool : string -> pyval) (llm : string -> BaseMessage)
    (site : string) (agent : AgentState -> M StepResult) :
  assoc site (nodes search_tool llm) = Some agent ->
  (site = "researcher" /\ agent = ResearchAgent search_tool) \/
  (site = "analyst" /\ agent = AnalysisAgent llm) \/
  (site = "writer" /\ agent = WritingAgent llm).
Proof.
  unfold nodes. cbn [assoc].
  destruct (String.eqb site "researcher") eqn:E1;
    [apply String.eqb_eq in E1; intros H; inversion H; auto|].
  destruct (String.eqb site "analyst") eqn:E2;
    [apply String.eqb_eq in E2; intros H; inversion H; auto|].
  destruct (String.eqb site "writer") eqn:E3;
    [apply String.eqb_eq in E3; intros H; inversion H; auto|].
  discriminate.
Qed.

(** X9: the tag an agent writes is always a key of the path map registered
    for that agent's own node, so the lookup after a node never misses: the
    researcher's tag leads to the analyst, the analyst's to the writer and
    the writer's to END. *)
Theorem emitted_tag_is_listed
    (search_tool : string -> pyval) (llm : string -> BaseMessage)
    (site : string) (agent : AgentState -> M StepResult)
    (s : AgentState) (log : list call) (u : StepResult) (log' : list call) :
  assoc site (nodes search_tool llm) = Some agent ->
  agent s log = (Returned u, log') ->
  exists tag t,
    upd_current_actor u = Some tag /\
    In tag (listed_tags site) /\
    successor site tag = Some t /\
    (t = END <-> site = "writer").
Proof.
  intros Hnode Hcall.
  apply assoc_nodes_inv in Hnode as [(-> & ->) | [(-> & ->) | (-> & ->)]].
  - destruct (last (messages s)) as [m|] eqn:El.
    + rewrite (ResearchAgent_returns search_tool s m log El) in Hcall.
      inversion Hcall; subst. exists "analyst", (Node "analyst"). cbn.
      repeat split; auto; discriminate.
    + apply last_None in El. rewrite (ResearchAgent_empty search_tool s log El) in Hcall.
      discriminate.
  - rewrite AnalysisAgent_returns in Hcall. inversion Hcall; subst.
    exists "writer", (Node "writer"). cbn. repeat split; auto; discriminate.
  - destruct (last (messages s)) as [m|] eqn:El.
    + rewrite (WritingAgent_returns llm s m log El) in Hcall.
      inversion Hcall; subst. exists "end", END. cbn. repeat split; auto.
    + apply last_None in El. rewrite (WritingAgent_empty llm s log El) in Hcall.
      discriminate.
Qed.

Lemma emitted_tag_is_listed_witness :
  exists tag t,
    Some "writer" = Some tag /\
    In tag (listed_tags "analyst") /\
    successor "analyst" tag = Some t /\
    (t = END <-> "analyst" = "writer").
Proof.
  exact (emitted_tag_is_listed stub_search stub_llm "analyst" (AnalysisAgent stub_llm)
           inputs [] _ _ eq_refl eq_refl).
Defined.

(** Where a node stands in the order the nodes were added. *)
Fixpoint position {V : Type} (key : string) (table : list (string * V)) : option nat :=
  match table with
  | [] => None
  | (k, _) :: rest =>
      if String.eqb key k then Some 0 else option_map S (position key rest)
  end.

(** The edges to a node that the three path maps hold. *)
Lemma successor_node_cases (site tag next : string) :
  successor site tag = Some (Node next) ->
  (site = "researcher" /\ tag = "analyst" /\ next = "analyst") \/
  (site = "researcher" /\ tag = "writer" /\ next = "writer") \/
  (site = "analyst" /\ tag = "writer" /\ next = "writer").
Proof.
  unfold successor, conditional_edges. cbn [assoc mbind option_bind].
  destruct (String.eqb site "researcher") eqn:E1;
    [apply String.eqb_eq in E1
    |destruct (String.eqb site "analyst") eqn:E2;
       [apply String.eqb_eq in E2
       |destruct (String.eqb site "writer") eqn:E3;
          [apply String.eqb_eq in E3 | discriminate]]];
    subst site; cbn [assoc mbind option_bind option_ret].
  - destruct (String.eqb tag "analyst") eqn:T1;
      [apply String.eqb_eq in T1
      |destruct (String.eqb tag "writer") eqn:T2;
         [apply String.eqb_eq in T2
         |destruct (String.eqb tag "end") eqn:T3; discriminate]];
      subst tag; intros H; inversion H; subst; auto.
  - destruct (String.eqb tag "writer") eqn:T2;
      [apply String.eqb_eq in T2
      |destruct (String.eqb tag "end") eqn:T3; discriminate].
    subst tag; intros H; inversion H; subst; auto.
  - destruct (String.eqb tag "end") eqn:T3; discriminate.
Qed.

(** X10: every path map sends a tag to the node of the same name, that node
    was added to the graph, and it was added after the node the map belongs
    to: no edge dangles, none loops back, and the researcher is nobody's
    successor.  A map that has such an edge also sends "end" to END. *)
Theorem path_maps_lead_forward
    (search_tool : string -> pyval) (llm : string -> BaseMessage)
    (site tag next : string) :
  successor site tag = Some (Node next) ->
  next = tag /\
  (exists agent, assoc next (nodes search_tool llm) = Some agent) /\
  (exists i j, position site (nodes search_tool llm) = Some i /\
               position next (nodes search_tool llm) = Some j /\ i < j) /\
  successor site "end" = Some END.
Proof.
  intros H.
  apply successor_node_cases in H
    as [(-> & -> & ->) | [(-> & -> & ->) | (-> & -> & ->)]];
    (split; [reflexivity|]); (split; [eexists; reflexivity|]);
    (split; [|reflexivity]); eexists _, _; cbn; repeat split; lia.
Qed.

Lemma path_maps_lead_forward_witness :
  (exists agent, assoc "writer" (nodes stub_search stub_llm) = Some agent) /\
  successor "researcher" "end" = Some END.
Proof.
  destruct (path_maps_lead_forward stub_search stub_llm "researcher" "writer" "writer" eq_refl)
    as (_ & Hnode & _ & Hend).
  split; [exact Hnode | exact Hend].
Defined.

(** ** Whole runs *)

(** The three dicts of a run, named after what they are computed from. *)
Definition research_dict (R : pyval) : StepResult :=
  {| upd_messages := Some [HumanMessage ("Research data: " +:+ py_str R)];
     upd_research_data := Some R;
     upd_current_actor := Some "analyst" |}.

Definition analysis_dict (analysis : BaseMessage) : StepResult :=
  {| upd_messages := Some [HumanMessage (content analysis)];
     upd_research_data := None;
     upd_current_actor := Some "writer" |}.

Definition writing_dict (final_response : BaseMessage) : StepResult :=
  {| upd_messages := Some [final_response];
     upd_research_data := None;
     upd_current_actor := Some "end" |}.

Definition analysis_prompt (R : pyval) : string := "Analyze this data: " +:+ py_str R.

Definition writing_prompt (m : BaseMessage) : string :=
  "Generate final response using: " +:+ content m.

Section Runs.

Variable search_tool : string -> pyval.
Variable llm : string -> BaseMessage.

Lemma node_step_researcher (s : AgentState) (m : BaseMessage) (log : list call) :
  last (messages s) = Some m ->
  node_step search_tool llm "researcher" s log =
    (Returned (Some (research_dict (search_tool (content m)),
                     apply_update s (research_dict (search_tool (content m))),
                     "analyst")),
     log ++ [SearchCall (content m)]).
Proof.
  intros El. unfold node_step, nodes. cbn [assoc String.eqb Ascii.eqb Bool.eqb].
  unfold mbind, M_bind. now rewrite (ResearchAgent_returns search_tool s m log El).
Qed.

Lemma node_step_analyst (s : AgentState) (log : list call) :
  node_step search_tool llm "analyst" s log =
    (Returned (Some (analysis_dict (llm (analysis_prompt (research_data s))),
                     apply_update s (analysis_dict (llm (analysis_prompt (research_data s)))),
                     "writer")),
     log ++ [LLMCall (analysis_prompt (research_data s))]).
Proof. reflexivity. Qed.

Lemma node_step_writer (s : AgentState) (m : BaseMessage) (log : list call) :
  last (messages s) = Some m ->
  node_step search_tool llm "writer" s log =
    (Returned (Some (writing_dict (llm (writing_prompt m)),
                     apply_update s (writing_dict (llm (writing_prompt m))),
                     "end")),
     log ++ [LLMCall (writing_prompt m)]).
Proof.
  intros El. unfold node_step, nodes. cbn [assoc String.eqb Ascii.eqb Bool.eqb].
  unfold mbind, M_bind. now rewrite (WritingAgent_returns llm s m log El).
Qed.

Lemma node_step_empty (site : string) (s : AgentState) (log : list call) :
  site = "researcher" \/ site = "writer" ->
  messages s = [] ->
  node_step search_tool llm site s log = (Raised IndexError, log).
Proof.
  intros [-> | ->] El; unfold node_step, nodes; cbn [assoc String.eqb Ascii.eqb Bool.eqb];
    unfold mbind, M_bind.
  - now rewrite (ResearchAgent_empty search_tool s log El).
  - now rewrite (WritingAgent_empty llm s log El).
Qed.

Lemma stream_from_S (fuel : nat) (site : string) (s : AgentState) :
  stream_from search_tool llm (S fuel) site s =
    (r ← node_step search_tool llm site s;
     match r with
     | None => mret {| outputs := []; final_state := s; how := NoNode site |}
     | Some (u, state', tag) =>
         match successor site tag with
         | None =>
             mret {| outputs := [(site, u)]; final_state := state'; how := NoEdge site tag |}
         | Some END =>
             mret {| outputs := [(site, u)]; final_state := state'; how := Halted |}
         | Some (Node next) =>
             rest ← stream_from search_tool llm fuel next state';
             mret {| outputs := (site, u) :: outputs rest;
                     final_state := final_state rest;
                     how := how rest |}
         end
     end).
Proof. reflexivity. Qed.

Lemma stream_from_writer (fuel : nat) (s : AgentState) (m : BaseMessage) (log : list call) :
  last (messages s) = Some m ->
  stream_from search_tool llm (S fuel) "writer" s log =
    (Returned {| outputs := [("writer", writing_dict (llm (writing_prompt m)))];
                 final_state := apply_update s (writing_dict (llm (writing_prompt m)));
                 how := Halted |},
     log ++ [LLMCall (writing_prompt m)]).
Proof.
  intros El. cbn [stream_from]. unfold mbind at 1, M_bind at 1.
  now rewrite (node_step_writer s m log El).
Qed.

Lemma stream_from_analyst (fuel : nat) (s : AgentState) (log : list call) :
  let analysis := llm (analysis_prompt (research_data s)) in
  let s1 := apply_update s (analysis_dict analysis) in
  let final_response := llm (writing_prompt (HumanMessage (content analysis))) in
  stream_from search_tool llm (S (S fuel)) "analyst" s log =
    (Returned {| outputs := [("analyst", analysis_dict analysis);
                             ("writer", writing_dict final_response)];
                 final_state := apply_update s1 (writing_dict final_response);
                 how := Halted |},
     log ++ [LLMCall (analysis_prompt (research_data s));
             LLMCall (writing_prompt (HumanMessage (content analysis)))]).
Proof.
  intros analysis s1 final_response.
  rewrite stream_from_S.
  unfold mbind at 1, M_bind at 1. rewrite node_step_analyst.
  cbn [successor conditional_edges assoc String.eqb Ascii.eqb Bool.eqb mbind option_bind].
  unfold mbind at 1, M_bind at 1.
  rewrite (stream_from_writer fuel s1 (HumanMessage (content analysis))).
  - cbn. now rewrite <- app_assoc.
  - subst s1. cbn. unfold add_messages. apply last_snoc.
Qed.

Lemma stream_from_researcher
    (fuel : nat) (s : AgentState) (m : BaseMessage) (log : list call) :
  last (messages s) = Some m ->
  let R := search_tool (content m) in
  let analysis := llm (analysis_prompt R) in
  let final_response := llm (writing_prompt (HumanMessage (content analysis))) in
  stream_from search_tool llm (S (S (S fuel))) "researcher" s log =
    (Returned {| outputs := [("researcher", research_dict R);
                             ("analyst", analysis_dict analysis);
                             ("writer", writing_dict final_response)];
                 final_state :=
                   {| messages := messages s ++
                                    [HumanMessage ("Research data: " +:+ py_str R);
                                     HumanMessage (content analysis);
                                     final_response];
                      current_actor := "end";
                      research_data := R |};
                 how := Halted |},
     log ++ [SearchCall (content m);
             LLMCall (analysis_prompt R);
             LLMCall (writing_prompt (HumanMessage (content analysis)))]).
Proof.
  intros El R analysis final_response.
  rewrite stream_from_S. unfold mbind at 1, M_bind at 1.
  rewrite (node_step_researcher s m log El).
  cbn [successor conditional_edges assoc String.eqb Ascii.eqb Bool.eqb mbind option_bind].
  unfold mbind at 1, M_bind at 1.
  rewrite (stream_from_analyst fuel).
  unfold mret, M_ret, apply_update, research_dict, analysis_dict, writing_dict, add_messages.
  cbn. now rewrite <- !app_assoc.
Qed.

End Runs.

(** X11: streaming the graph from any input that has a last message [m],
    with any clients and any budget of three steps or more, halts at END
    after the three nodes in order.  The search is asked [m]'s text, the
    model is asked to analyse the search result and then to write from the
    text of its own analysis; the final state has the input's history with
    the three new messages after it, [current_actor] "end" and the search
    result as [research_data].  What the input had as [current_actor] and
    [research_data] plays no part. *)
Theorem run_from_any_input
    (search_tool : string -> pyval) (llm : string -> BaseMessage)
    (extra : nat) (s : AgentState) (m : BaseMessage) (log : list call) :
  last (messages s) = Some m ->
  let R := search_tool (content m) in
  let analysis := llm (analysis_prompt R) in
  let final_response := llm (writing_prompt (HumanMessage (content analysis))) in
  app_stream search_tool llm (3 + extra) s log =
    (Returned {| outputs := [("researcher", research_dict R);
                             ("analyst", analysis_dict analysis);
                             ("writer", writing_dict final_response)];
                 final_state :=
                   {| messages := messages s ++
                                    [HumanMessage ("Research data: " +:+ py_str R);
                                     HumanMessage (content analysis);
                                     final_response];
                      current_actor := "end";
                      research_data := R |};
                 how := Halted |},
     log ++ [SearchCall (content m);
             LLMCall (analysis_prompt R);
             LLMCall (writing_prompt (HumanMessage (content analysis)))]).
Proof.
  intros El. exact (stream_from_researcher search_tool llm extra s m log El).
Qed.

Lemma run_from_any_input_witness :
  exists r,
    app_stream stub_search stub_llm 3 longer_history [] =
      (Returned r,
       [SearchCall "Research latest AI advancements";
        LLMCall "Analyze this data: ['result A', 'result B']";
        LLMCall "Generate final response using: re: Analyze this data: ['result A', 'result B']"])
    /\ current_actor (final_state r) = "end"
    /\ length (messages (final_state r)) = 5.
Proof.
  eexists. split.
  - exact (run_from_any_input stub_search stub_llm 0 longer_history
             (HumanMessage "Research latest AI advancements") [] eq_refl).
  - split; reflexivity.
Defined.

(** X12: streaming from an input with an empty history raises the
    [IndexError] of the research agent on the first step, whatever the budget
    (if any step is allowed at all): nothing is yielded and no client is
    called. *)
Theorem run_on_empty_history_raises
    (search_tool : string -> pyval) (llm : string -> BaseMessage)
    (fuel : nat) (s : AgentState) (log : list call) :
  messages s = [] ->
  app_stream search_tool llm (S fuel) s log = (Raised IndexError, log).
Proof.
  intros El. unfold app_stream, entry_point. cbn [stream_from].
  unfold mbind at 1, M_bind at 1.
  now rewrite (node_step_empty search_tool llm "researcher" s log (or_introl eq_refl) El).
Qed.

Lemma run_on_empty_history_raises_witness :
  app_stream stub_search stub_llm 25 empty_history [] = (Raised IndexError, []).
Proof.
  exact (run_on_empty_history_raises stub_search stub_llm 24 empty_history [] eq_refl).
Defined.

(** ** The history along a run *)

Lemma node_step_shape
    (search_tool : string -> pyval) (llm : string -> BaseMessage)
    (site : string) (s : AgentState) (log : list call)
    (u : StepResult) (s' : AgentState) (tag : string) (log' : list call) :
  node_step search_tool llm site s log = (Returned (Some (u, s', tag)), log') ->
  exists msg c, messages s' = messages s ++ [msg] /\ log' = log ++ [c].
Proof.
  intros H. apply node_step_inv in H as (-> & _ & Hsite).
  destruct Hsite as [(_ & Hcall & _) | [(_ & Hcall & _) | (_ & Hcall & _)]].
  - destruct (last (messages s)) as [m|] eqn:El.
    + rewrite (ResearchAgent_returns search_tool s m log El) in Hcall.
      inversion Hcall; subst. eexists _, _. split; reflexivity.
    + apply last_None in El. rewrite (ResearchAgent_empty search_tool s log El) in Hcall.
      discriminate.
  - rewrite AnalysisAgent_returns in Hcall. inversion Hcall; subst.
    eexists _, _. split; reflexivity.
  - destruct (last (messages s)) as [m|] eqn:El.
    + rewrite (WritingAgent_returns llm s m log El) in Hcall.
      inversion Hcall; subst. eexists _, _. split; reflexivity.
    + apply last_None in El. rewrite (WritingAgent_empty llm s log El) in Hcall.
      discriminate.
Qed.

(** X14: along a run the history only grows, by one message per client
    call: in every configuration the input's messages are still there, in
    front, followed by as many new messages as there are calls in the log.
    Once a step has been made, the node about to run is not the entry node
    and its state has a last message, so the lookup of the last message that
    the writing agent starts with finds one. *)
Theorem history_grows_with_the_log
    (search_tool : string -> pyval) (llm : string -> BaseMessage)
    (inputs0 : AgentState) (site : string) (s : AgentState) (log : list call) :
  reachable search_tool llm inputs0 site s log ->
  (exists new, messages s = messages inputs0 ++ new /\ length new = length log) /\
  (log <> [] ->
   site <> entry_point /\
   exists m, last (messages s) = Some m /\ py_last (messages s) log = (Returned m, log)).
Proof.
  intros Hreach.
  induction Hreach as [|site s log u s' tag log' next Hreach IH Hstep Hedge].
  - split; [exists []; split; [now rewrite app_nil_r | reflexivity]|].
    intros H. now destruct H.
  - destruct IH as ((new & Hnew & Hlen) & _).
    destruct (node_step_shape _ _ _ _ _ _ _ _ _ Hstep) as (msg & c & Hmsg & Hlog).
    split.
    + exists (new ++ [msg]). rewrite Hmsg, Hnew, Hlog, <- app_assoc.
      split; [reflexivity|]. rewrite !length_app. cbn. lia.
    + intros _. split.
      * apply successor_node_cases in Hedge
          as [(_ & _ & ->) | [(_ & _ & ->) | (_ & _ & ->)]]; discriminate.
      * exists msg. assert (Hl : last (messages s') = Some msg)
          by (rewrite Hmsg; apply last_snoc).
        split; [exact Hl | now apply py_last_some].
Qed.

Lemma history_grows_with_the_log_witness :
  (exists new,
     messages (apply_update inputs (research_dict (stub_search "Research latest AI advancements")))
       = messages inputs ++ new /\
     length new = 1) /\
  "analyst" <> entry_point.
Proof.
  destruct (history_grows_with_the_log stub_search stub_llm inputs "analyst"
              (apply_update inputs (research_dict (stub_search "Research latest AI advancements")))
              [SearchCall "Research latest AI advancements"]) as ((new & H1 & H2) & Hlater).
  - apply (reach_next stub_search stub_llm inputs entry_point inputs []
             (research_dict (stub_search "Research latest AI advancements"))
             _ "analyst" _ "analyst").
    + apply reach_entry.
    + reflexivity.
    + reflexivity.
  - split; [exists new; split; [exact H1 | exact H2]|].
    destruct Hlater as (Hsite & _); [discriminate | exact Hsite].
Defined.

(** ** What the formatted search result shows *)

(** Induction over a value and the values nested in it. *)
Section PyvalInduction.

Variable P : pyval -> Prop.
Hypothesis case_str : forall s, P (PyStr s).
Hypothesis case_list : forall items, Forall P items -> P (PyList items).
Hypothesis case_dict :
  forall items, Forall (fun kv => P (fst kv) /\ P (snd kv)) items -> P (PyDict items).

Fixpoint pyval_nested_ind (v : pyval) : P v :=
  match v with
  | PyStr s => case_str s
  | PyList items =>
      case_list items
        ((fix each (l : list pyval) : Forall P l :=
            match l with
            | [] => List.Forall_nil P
            | x :: rest => List.Forall_cons P x rest (pyval_nested_ind x) (each rest)
            end) items)
  | PyDict items =>
      case_dict items
        ((fix each (l : list (pyval * pyval))
            : Forall (fun kv => P (fst kv) /\ P (snd kv)) l :=
            match l with
            | [] => List.Forall_nil _
            | (k, x) :: rest =>
                List.Forall_cons _ (k, x) rest
                  (conj (pyval_nested_ind k) (pyval_nested_ind x)) (each rest)
            end) items)
  end.

End PyvalInduction.

(** A text occurs in a value: it is the value, or an item, key or value
    somewhere inside it. *)
Fixpoint occurs (x : string) (v : pyval) : bool :=
  match v with
  | PyStr s => String.eqb s x
  | PyList items => existsb (occurs x) items
  | PyDict items => existsb (fun kv => occurs x (fst kv) || occurs x (snd kv)) items
  end.

(** Printable ASCII other than the single quote and the backslash. *)
Definition plain_char (c : ascii) : bool :=
  let n := nat_of_ascii c in
  ((32 <=? n) && (n <? 127) && negb (n =? 39) && negb (n =? 92))%nat.

Fixpoint plain (s : string) : bool :=
  match s with
  | EmptyString => true
  | String c rest => plain_char c && plain rest
  end.

Lemma repr_char_plain (c : ascii) :
  plain_char c = true ->
  repr_char squote c = String c EmptyString /\ Ascii.eqb squote c = false.
Proof.
  destruct c as [[] [] [] [] [] [] [] []]; vm_compute; intros H;
    try discriminate H; split; reflexivity.
Qed.

Lemma repr_str_plain (s : string) :
  plain s = true -> repr_str s = String squote (s +:+ String squote EmptyString).
Proof.
  intros H.
  assert (Hq : has_char squote s = false /\ repr_chars squote s = s).
  { induction s as [|c s IH]; [split; reflexivity|].
    cbn [plain] in H. apply andb_true_iff in H as (Hc & Hs).
    destruct (repr_char_plain c Hc) as (Hr & He). destruct (IH Hs) as (IH1 & IH2).
    cbn [has_char repr_chars]. rewrite Hr, He, IH1. split; [reflexivity|].
    cbn [String.append]. f_equal. exact IH2. }
  destruct Hq as (Hq1 & Hq2). unfold repr_str. rewrite Hq1. cbn [andb]. now rewrite Hq2.
Qed.

Lemma prefix_append_l (n a b : string) :
  String.prefix n a = true -> String.prefix n (a +:+ b) = true.
Proof.
  revert a. induction n as [|c n IH]; intros a H; [now destruct (a +:+ b)|].
  destruct a as [|d a]; [discriminate H|].
  change (String d a +:+ b) with (String d (a +:+ b)). cbn [String.prefix] in *.
  destruct (ascii_dec c d); [now apply IH | discriminate H].
Qed.

Lemma contains_append_l (n a b : string) :
  contains n a = true -> contains n (a +:+ b) = true.
Proof.
  induction a as [|c a IH]; cbn [contains]; intros H.
  - rewrite orb_false_r in H. destruct n; [|discriminate H].
    destruct b; reflexivity.
  - apply orb_true_iff in H as [H | H].
    + change (String c a +:+ b) with (String c (a +:+ b)).
      cbn [contains]. apply orb_true_iff. left.
      exact (prefix_append_l n (String c a) b H).
    + change (String c a +:+ b) with (String c (a +:+ b)).
      cbn [contains]. apply orb_true_iff. right. now apply IH.
Qed.

Lemma contains_join (x sep : string) (parts : list string) :
  (exists p, In p parts /\ contains x p = true) ->
  contains x (join sep parts) = true.
Proof.
  intros (p & Hin & Hp). induction parts as [|q rest IH]; [destruct Hin|].
  destruct rest as [|q' rest].
  - destruct Hin as [-> | []]. exact Hp.
  - change (join sep (q :: q' :: rest)) with (q +:+ sep +:+ join sep (q' :: rest)).
    destruct Hin as [-> | Hin].
    + now apply contains_append_l.
    + apply contains_append_r, contains_append_r. now apply IH.
Qed.

Lemma py_repr_shows (x : string) (v : pyval) :
  plain x = true -> occurs x v = true -> contains x (py_repr v) = true.
Proof.
  intros Hx. induction v as [s | items IH | items IH] using pyval_nested_ind;
    cbn [occurs py_repr]; intros Hocc.
  - apply String.eqb_eq in Hocc. subst s. rewrite (repr_str_plain x Hx).
    apply (contains_append_r x (String squote EmptyString)).
    apply contains_append_l, contains_self.
  - apply existsb_exists in Hocc as (item & Hin & Hitem).
    apply (contains_append_r x "["), contains_append_l, contains_join.
    exists (py_repr item). split; [now apply in_map|].
    rewrite Forall_forall in IH. apply IH; [|exact Hitem].
    now apply list_elem_of_In.
  - apply existsb_exists in Hocc as (kv & Hin & Hkv).
    apply (contains_append_r x "{"), contains_append_l, contains_join.
    exists (py_repr (fst kv) +:+ ": " +:+ py_repr (snd kv)). split.
    + apply in_map_iff. now exists kv.
    + rewrite Forall_forall in IH.
      destruct (IH kv (proj2 (list_elem_of_In _ _) Hin)) as (IHk & IHv).
      apply orb_true_iff in Hkv as [Hk | Hv].
      * apply contains_append_l. now apply IHk.
      * apply contains_append_r, contains_append_r. now apply IHv.
Qed.

Lemma py_str_shows (x : string) (v : pyval) :
  plain x = true -> occurs x v = true -> contains x (py_str v) = true.
Proof.
  intros Hx Hocc. destruct v as [s | items | items];
    [|exact (py_repr_shows x _ Hx Hocc) | exact (py_repr_shows x _ Hx Hocc)].
  cbn in *. apply String.eqb_eq in Hocc. subst s. apply contains_self.
Qed.

(** A search result shaped like the tool's: a list of records. *)
Definition record_search (query : string) : pyval :=
  PyList [PyDict [(PyStr "url", PyStr "https://example.org/a");
                  (PyStr "content", PyStr "Models got better.")]].

(** X15: every text of printable ASCII without single quote or backslash
    that occurs in the search result, at any depth (the result itself, a list
    item, a key or a value of a record), can be read unchanged in the
    message the research agent returns, and in the prompt the analysis agent
    sends to the model once that result is the state's [research_data]. *)
Theorem result_texts_reach_message_and_prompt
    (search_tool : string -> pyval) (llm : string -> BaseMessage)
    (s : AgentState) (m : BaseMessage) (x : string) (log : list call) :
  last (messages s) = Some m ->
  plain x = true ->
  occurs x (search_tool (content m)) = true ->
  exists u msg log1 prompt,
    ResearchAgent search_tool s log = (Returned u, log1) /\
    upd_messages u = Some [msg] /\
    contains x (content msg) = true /\
    snd (AnalysisAgent llm (apply_update s u) log1) = log1 ++ [LLMCall prompt] /\
    contains x prompt = true.
Proof.
  intros El Hx Hocc.
  eexists _, _, _, _. split; [exact (ResearchAgent_returns search_tool s m log El)|].
  split; [reflexivity|]. split; [|split; [reflexivity|]].
  - cbn. apply (contains_append_r x "Research data: "). now apply py_str_shows.
  - cbn. apply (contains_append_r x "Analyze this data: "). now apply py_str_shows.
Qed.

Lemma result_texts_reach_message_and_prompt_witness :
  exists u msg log1 prompt,
    ResearchAgent record_search inputs [] = (Returned u, log1) /\
    upd_messages u = Some [msg] /\
    contains "Models got better." (content msg) = true /\
    snd (AnalysisAgent stub_llm (apply_update inputs u) log1) = log1 ++ [LLMCall prompt] /\
    contains "Models got better." prompt = true.
Proof.
  exact (result_texts_reach_message_and_prompt record_search stub_llm inputs
           (HumanMessage "Research latest AI advancements") "Models got better." []
           eq_refl eq_refl eq_refl).
Defined.
